(** * await-interactions: interactions should be awaited

    A shallow embedding of [src/lib/rules/await-interactions.ts], the lint
    rule that reports calls to Testing-Library / Storybook interaction
    primitives which are not awaited, and of the properties its
    specification states about it. *)

From Stdlib Require Import Bool List String Arith Lia.
Import ListNotations.
Open Scope string_scope.
Open Scope list_scope.

Local Set Warnings "-register-all".

(** ** Nullable values

    [x?.f] and the reads the rule makes behind a type guard are chained
    with the bind of [option]. *)

Definition obind {A B : Type} (o : option A) (f : A -> option B) : option B :=
  match o with
  | Some a => f a
  | None => None
  end.

Notation "o ?. f" := (obind o f) (at level 50, left associativity).

(** ** Syntax-tree nodes

    A [Node] is one node of the parsed file as the rule sees it from where
    it stands: the chain of its parents upwards ([parent], absent at the
    root) and, downwards, the sub-expressions the rule inspects.  The
    constructor of [detail] is the node's kind tag, with the fields of that
    kind the rule reads; the fields it never reads (arguments, bodies, the
    children of a parent, the parent link of a sub-expression) are left
    out or left absent.  [range] is the node's source span. *)

Record StringLiteral : Type := { value : string }.

Record ImportDeclarationNode : Type := { source : StringLiteral }.

Inductive Node : Type :=
| mkNode (parent : option Node) (range : nat * nat) (detail : Detail)

with Detail : Type :=
| Identifier (name : string)
| MemberExpression (object property : Node)
| CallExpression (callee : Node)
| TSNonNullExpression (expression : Node)
| AwaitExpression
| ArrowFunctionExpression (async : bool)
| FunctionExpression (async : bool)
| FunctionDeclaration (async : bool)
| ReturnStatement
| Program
| ImportDeclaration (decl : ImportDeclarationNode)
| Other (type : string).

Definition parent (n : Node) : option Node :=
  match n with mkNode p _ _ => p end.

Definition range (n : Node) : nat * nat :=
  match n with mkNode _ r _ => r end.

Definition detail (n : Node) : Detail :=
  match n with mkNode _ _ d => d end.

(** Kind-specific field reads.  Each is defined on the kinds that carry the
    field and is absent on the others, as a property read of a JavaScript
    object is. *)

Definition name (n : Node) : option string :=
  match detail n with Identifier s => Some s | _ => None end.

Definition object (n : Node) : option Node :=
  match detail n with MemberExpression o _ => Some o | _ => None end.

Definition property (n : Node) : option Node :=
  match detail n with MemberExpression _ p => Some p | _ => None end.

Definition callee (n : Node) : option Node :=
  match detail n with CallExpression c => Some c | _ => None end.

Definition expression (n : Node) : option Node :=
  match detail n with TSNonNullExpression e => Some e | _ => None end.

Definition async (n : Node) : option bool :=
  match detail n with
  | ArrowFunctionExpression a | FunctionExpression a | FunctionDeclaration a => Some a
  | _ => None
  end.

(** ** Node predicates ([../utils/ast]) *)

(** Modelled from the spec: the type guards of [src/lib/utils/ast.ts], which
    is not among the sources.  Each is a pure test of the kind tag of a
    possibly absent node; an absent node gives [false]. *)
Definition isNodeOfType (tag : Detail -> bool) (node : option Node) : bool :=
  match node with
  | Some n => tag (detail n)
  | None => false
  end.

Definition isMemberExpression : option Node -> bool :=
  isNodeOfType (fun d => match d with MemberExpression _ _ => true | _ => false end).
Definition isIdentifier : option Node -> bool :=
  isNodeOfType (fun d => match d with Identifier _ => true | _ => false end).
Definition isAwaitExpression : option Node -> bool :=
  isNodeOfType (fun d => match d with AwaitExpression => true | _ => false end).
Definition isCallExpression : option Node -> bool :=
  isNodeOfType (fun d => match d with CallExpression _ => true | _ => false end).
Definition isArrowFunctionExpression : option Node -> bool :=
  isNodeOfType (fun d => match d with ArrowFunctionExpression _ => true | _ => false end).
Definition isReturnStatement : option Node -> bool :=
  isNodeOfType (fun d => match d with ReturnStatement => true | _ => false end).
Definition isTSNonNullExpression : option Node -> bool :=
  isNodeOfType (fun d => match d with TSNonNullExpression _ => true | _ => false end).
Definition isFunctionDeclaration : option Node -> bool :=
  isNodeOfType (fun d => match d with FunctionDeclaration _ => true | _ => false end).
Definition isFunctionExpression : option Node -> bool :=
  isNodeOfType (fun d => match d with FunctionExpression _ => true | _ => false end).
Definition isProgram : option Node -> bool :=
  isNodeOfType (fun d => match d with Program => true | _ => false end).

(** ** Helpers of the rule *)

Definition FUNCTIONS_TO_BE_AWAITED : list string :=
  [ "waitFor";
    "waitForElementToBeRemoved";
    "wait";
    "waitForElement";
    "waitForDomChange";
    "userEvent";
    "play" ].

(** [Array.prototype.includes] on strings. *)
Definition includes (l : list string) (s : string) : bool :=
  existsb (String.eqb s) l.

(** [String.prototype.startsWith]. *)
Definition startsWith (s pre : string) : bool := String.prefix pre s.

Definition shouldAwait (name : string) : bool :=
  includes FUNCTIONS_TO_BE_AWAITED name || startsWith name "findBy".

(** [shouldAwait(x.name)] for a node [x] that a guard has shown to be an
    identifier; on such a node the name is present. *)
Definition shouldAwaitName (x : option Node) : bool :=
  match x ?. name with
  | Some s => shouldAwait s
  | None => false
  end.

(** [x.name === s], under the same guard. *)
Definition nameIs (x : option Node) (s : string) : bool :=
  match x ?. name with
  | Some s' => String.eqb s' s
  | None => false
  end.

Definition getMethodThatShouldBeAwaited (expr : Node) : option Node :=
  (* When an expression is a return value it doesn't need to be awaited *)
  if isArrowFunctionExpression (parent expr) || isReturnStatement (parent expr) then
    None
  else if isMemberExpression (callee expr)
          && isIdentifier (callee expr ?. object)
          && shouldAwaitName (callee expr ?. object) then
    callee expr ?. object
  else if isTSNonNullExpression (callee expr)
          && isMemberExpression (callee expr ?. expression)
          && isIdentifier (callee expr ?. expression ?. property)
          && shouldAwaitName (callee expr ?. expression ?. property) then
    callee expr ?. expression ?. property
  else if isMemberExpression (callee expr)
          && isIdentifier (callee expr ?. property)
          && shouldAwaitName (callee expr ?. property) then
    callee expr ?. property
  else if isMemberExpression (callee expr)
          && isCallExpression (callee expr ?. object)
          && isIdentifier (callee expr ?. object ?. callee)
          && isIdentifier (callee expr ?. property)
          && nameIs (callee expr ?. object ?. callee) "expect" then
    callee expr ?. property
  else if isIdentifier (callee expr) && shouldAwaitName (callee expr) then
    callee expr
  else
    None.

Fixpoint getClosestFunctionAncestor (node : Node) : option Node :=
  match parent node with
  | None => None
  | Some p =>
      if isProgram (Some p) then None
      else if isArrowFunctionExpression (Some p)
              || isFunctionExpression (Some p)
              || isFunctionDeclaration (Some p) then
        parent node
      else getClosestFunctionAncestor p
  end.

Definition isExpectFromStorybookImported (node : ImportDeclarationNode) : bool :=
  startsWith (value (source node)) "@storybook/".

(** ** The reporting interface

    The host hands a fix function a [fixer]; the rule uses its
    [insertTextBefore] only, so a fix function is a function from any
    implementation of that primitive to the list of insertions it asks
    for. *)

Record RuleFixer (RuleFix : Type) : Type :=
  { insertTextBefore : Node -> string -> RuleFix }.

Arguments insertTextBefore {RuleFix} _ _ _.

Definition ReportFixFunction : Type :=
  forall RuleFix : Type, RuleFixer RuleFix -> list RuleFix.

Record SuggestionReportDescriptor : Type :=
  { suggest_messageId : string;
    suggest_fix : ReportFixFunction }.

Record ReportData : Type := { data_method : option string }.

Record ReportDescriptor : Type :=
  { report_node : Node;
    messageId : string;
    data : ReportData;
    report_fix : ReportFixFunction;
    suggest : list SuggestionReportDescriptor }.

(** ** The rule's state and visitors *)

Record Invocation : Type := { node : Node; method : Node }.

Record State : Type :=
  { isImportingFromStorybookExpect : bool;
    invocationsThatShouldBeAwaited : list Invocation }.

(** The two [let] bindings of [create]. *)
Definition create : State :=
  {| isImportingFromStorybookExpect := true;
     invocationsThatShouldBeAwaited := [] |}.

(** The [ImportDeclaration] visitor. *)
Definition on_ImportDeclaration (node : ImportDeclarationNode) (st : State) : State :=
  if negb (isExpectFromStorybookImported node) then
    {| isImportingFromStorybookExpect := false;
       invocationsThatShouldBeAwaited := invocationsThatShouldBeAwaited st |}
  else st.

(** The [CallExpression] visitor. *)
Definition on_CallExpression (node : Node) (st : State) : State :=
  match getMethodThatShouldBeAwaited node with
  | Some method =>
      if negb (isAwaitExpression (parent node))
         && negb (isAwaitExpression (parent node ?. parent)) then
        {| isImportingFromStorybookExpect := isImportingFromStorybookExpect st;
           invocationsThatShouldBeAwaited :=
             invocationsThatShouldBeAwaited st ++ [ {| node := node; method := method |} ] |}
      else st
  | None => st
  end.

(** [parentFnNode && !('async' in parentFnNode && parentFnNode.async)] *)
Definition parentFnNeedsAsync (parentFnNode : option Node) : bool :=
  match parentFnNode with
  | Some f =>
      negb (match async f with
            | Some a => a
            | None => false
            end)
  | None => false
  end.

Definition fixFn (node : Node) (parentFnNode : option Node) : ReportFixFunction :=
  fun _ fixer =>
    let fixerResult := [ insertTextBefore fixer node "await " ] in
    if parentFnNeedsAsync parentFnNode then
      match parentFnNode with
      | Some f => fixerResult ++ [ insertTextBefore fixer f "async " ]
      | None => fixerResult
      end
    else fixerResult.

(** The body of the [forEach] of [Program:exit]: the report made for one
    queued invocation. *)
Definition report (i : Invocation) : ReportDescriptor :=
  let parentFnNode := getClosestFunctionAncestor (node i) in
  {| report_node := node i;
     messageId := "interactionShouldBeAwaited";
     data := {| data_method := name (method i) |};
     report_fix := fixFn (node i) parentFnNode;
     suggest :=
       [ {| suggest_messageId := "fixSuggestion";
            suggest_fix := fixFn (node i) parentFnNode |} ] |}.

(** The [Program:exit] visitor; what it returns is the list of its calls of
    [context.report], in order. *)
Definition on_Program_exit (st : State) : list ReportDescriptor :=
  if isImportingFromStorybookExpect st
     && negb (Nat.eqb (List.length (invocationsThatShouldBeAwaited st)) 0) then
    map report (invocationsThatShouldBeAwaited st)
  else [].

(** ** The host's traversal *)

(** Modelled from the spec: the host's visitor mechanism, which is not part
    of the repository.  It calls the [ImportDeclaration] visitor on each
    import statement and the [CallExpression] visitor on each call
    expression, in the order [nodes] of its walk over the file, and
    [Program:exit] once after the whole file has been visited. *)
Definition visit (st : State) (n : Node) : State :=
  match detail n with
  | ImportDeclaration d => on_ImportDeclaration d st
  | CallExpression _ => on_CallExpression n st
  | _ => st
  end.

Definition traverse (nodes : list Node) (st : State) : State :=
  fold_left visit nodes st.

Definition lint (nodes : list Node) : list ReportDescriptor :=
  on_Program_exit (traverse nodes create).

(** The fixer that records each insertion it is asked for. *)
Definition recorder : RuleFixer (Node * string) :=
  {| insertTextBefore := fun n text => (n, text) |}.

(** ** Sample files *)

Module Samples.

Definition ident (s : string) (r : nat * nat) : Node :=
  mkNode None r (Identifier s).

Definition member (o p : Node) : Node :=
  mkNode None (fst (range o), snd (range p)) (MemberExpression o p).

Definition program : Node := mkNode None (0, 200) Program.

Definition import_from (src : string) (r : nat * nat) : Node :=
  mkNode (Some program) r (ImportDeclaration {| source := {| value := src |} |}).

(** [const play = () => { ... }], or [async () => { ... }] when [a]. *)
Definition play_fn (a : bool) : Node :=
  mkNode (Some (mkNode (Some (mkNode (Some program) (40, 120)
                                     (Other "VariableDeclaration")))
                       (46, 120) (Other "VariableDeclarator")))
         (60, 120) (ArrowFunctionExpression a).

Definition block (a : bool) : Node :=
  mkNode (Some (play_fn a)) (66, 120) (Other "BlockStatement").

Definition statement (a : bool) (r : nat * nat) : Node :=
  mkNode (Some (block a)) r (Other "ExpressionStatement").

Definition userEvent_click : Node :=
  member (ident "userEvent" (70, 79)) (ident "click" (80, 85)).

(** [userEvent.click(button)] as a statement of the play function. *)
Definition click_call (a : bool) : Node :=
  mkNode (Some (statement a (70, 93))) (70, 93) (CallExpression userEvent_click).

(** [canvas.findByRole('button')] as a statement of the play function. *)
Definition findByRole_call (a : bool) : Node :=
  mkNode (Some (statement a (70, 98))) (70, 98)
         (CallExpression
            (member (ident "canvas" (70, 76)) (ident "findByRole" (77, 87)))).

(** [expect(button).toBe(1)] as a statement of the play function. *)
Definition toBe : Node := ident "toBe" (111, 115).

Definition expect_call : Node :=
  mkNode None (96, 110) (CallExpression (ident "expect" (96, 102))).

Definition expect_toBe_call (a : bool) : Node :=
  mkNode (Some (statement a (96, 118))) (96, 118)
         (CallExpression (member expect_call toBe)).

(** [await log(play())]: the call [play()] is an argument of the awaited
    call [log(...)]. *)
Definition awaited_log : Node :=
  mkNode (Some (mkNode (Some (statement true (70, 87))) (70, 87) AwaitExpression))
         (76, 87) (CallExpression (ident "log" (76, 79))).

Definition play_in_log : Node :=
  mkNode (Some awaited_log) (80, 86) (CallExpression (ident "play" (80, 84))).

(** [canvas.findByRole!('button')] and [userEvent.click!(button)] as
    statements of the play function: the callee is a non-null assertion. *)
Definition nonNull (e : Node) : Node :=
  mkNode None (fst (range e), S (snd (range e))) (TSNonNullExpression e).

Definition findByRole_nonNull_call (a : bool) : Node :=
  mkNode (Some (statement a (70, 99))) (70, 99)
         (CallExpression
            (nonNull (member (ident "canvas" (70, 76)) (ident "findByRole" (77, 87))))).

Definition click_nonNull_call (a : bool) : Node :=
  mkNode (Some (statement a (70, 94))) (70, 94) (CallExpression (nonNull userEvent_click)).

(** [render()] as a statement of the play function. *)
Definition render_call (a : bool) : Node :=
  mkNode (Some (statement a (100, 108))) (100, 108)
         (CallExpression (ident "render" (100, 106))).

(** [canvas.findByRole('x').then(done)] as a statement of the asynchronous
    play function: the call [canvas.findByRole('x')] is the object of the
    member access [.then], which is the callee of the outer call. *)
Definition canvas_findByRole (at_ : nat) : Node :=
  member (ident "canvas" (at_, at_ + 6)) (ident "findByRole" (at_ + 7, at_ + 17)).

Definition findByRole_cut (at_ : nat) : Node :=
  mkNode None (at_, at_ + 22) (CallExpression (canvas_findByRole at_)).

Definition then_callee (at_ : nat) : Node :=
  mkNode None (at_, at_ + 27)
         (MemberExpression (findByRole_cut at_) (ident "then" (at_ + 23, at_ + 27))).

Definition then_call : Node :=
  mkNode (Some (statement true (70, 103))) (70, 103) (CallExpression (then_callee 70)).

Definition then_member : Node :=
  mkNode (Some then_call) (70, 97)
         (MemberExpression (findByRole_cut 70) (ident "then" (93, 97))).

Definition chained_findByRole : Node :=
  mkNode (Some then_member) (70, 92) (CallExpression (canvas_findByRole 70)).

(** The same statement after [await ] is inserted at offset 70, where the
    call [canvas.findByRole('x')] starts and the whole chain with it:
    [await canvas.findByRole('x').then(done)].  The await expression takes
    the chain, that is the outer call, as its argument. *)
Definition patched_await : Node :=
  mkNode (Some (statement true (70, 109))) (70, 109) AwaitExpression.

Definition patched_then_call : Node :=
  mkNode (Some patched_await) (76, 109) (CallExpression (then_callee 76)).

Definition patched_then_member : Node :=
  mkNode (Some patched_then_call) (76, 103)
         (MemberExpression (findByRole_cut 76) (ident "then" (99, 103))).

Definition patched_findByRole : Node :=
  mkNode (Some patched_then_member) (76, 98) (CallExpression (canvas_findByRole 76)).

(** [play()] as a top-level statement. *)
Definition top_play : Node :=
  mkNode (Some (mkNode (Some program) (130, 136) (Other "ExpressionStatement")))
         (130, 136) (CallExpression (ident "play" (130, 134))).

End Samples.

(** * Properties *)

(** ** Vocabulary *)

(** The three kinds of function the scope resolver stops at. *)
Definition isFunctionLike (p : Node) : bool :=
  isArrowFunctionExpression (Some p)
  || isFunctionExpression (Some p)
  || isFunctionDeclaration (Some p).

(** The chain of parents of a node, nearest first. *)
Fixpoint ancestors (n : Node) : list Node :=
  match parent n with
  | None => []
  | Some p => p :: ancestors p
  end.

(** The precondition of the [expect(...)] branch on the object of the
    callee: a member access on a call of an identifier named [expect]. *)
Definition isExpectChain (expr : Node) : bool :=
  isMemberExpression (callee expr)
  && isCallExpression (callee expr ?. object)
  && isIdentifier (callee expr ?. object ?. callee)
  && nameIs (callee expr ?. object ?. callee) "expect".

(** The exemption of return positions. *)
Definition isReturnValue (expr : Node) : bool :=
  isArrowFunctionExpression (parent expr) || isReturnStatement (parent expr).

(** What the [CallExpression] visitor requires to be false of a classified
    call before it queues it. *)
Definition isAwaited (expr : Node) : bool :=
  isAwaitExpression (parent expr) || isAwaitExpression (parent expr ?. parent).

(** A node that is neither the program root nor a function: the walk goes
    on through it. *)
Definition passedThrough (a : Node) : Prop :=
  isProgram (Some a) = false /\ isFunctionLike a = false.

(** What holds of every queued invocation: its method is what the classifier
    returned for its node, and the node was not awaited. *)
Definition queued (i : Invocation) : Prop :=
  getMethodThatShouldBeAwaited (node i) = Some (method i)
  /\ isAwaited (node i) = false.

(** The text insertions of a fix that add the asynchronous marker. *)
Definition asyncInsertions (f : ReportFixFunction) : list (Node * string) :=
  filter (fun e => String.eqb (snd e) "async ") (f _ recorder).

(** The insertions of the marker that the fixes of a list of reports ask
    for, all together and in order. *)
Definition markerInsertions (rs : list ReportDescriptor) : list (Node * string) :=
  flat_map (fun r => asyncInsertions (report_fix r)) rs.

(** The insertion of the marker that goes with one report: before the
    nearest enclosing function of its call, when there is one and it is
    not asynchronous. *)
Definition markerOf (r : ReportDescriptor) : list (Node * string) :=
  match getClosestFunctionAncestor (report_node r) with
  | Some f => if parentFnNeedsAsync (Some f) then [ (f, "async ") ] else []
  | None => []
  end.

(** The call as it stands in the tree of the patched text when the inserted
    [await ] takes the call itself as its argument: under a new await
    expression, which takes the place of the call under its former parent.
    The spans in the patched text are those the parser gives. *)
Definition withAwait (awaitRange callRange : nat * nat) (n : Node) : Node :=
  mkNode (Some (mkNode (parent n) awaitRange AwaitExpression)) callRange (detail n).

(** A call of an identifier named [expect]: what the [expect(...)] branch
    asks of the object of the callee. *)
Definition isExpectCall (o : option Node) : bool :=
  isCallExpression o
  && isIdentifier (o ?. callee)
  && nameIs (o ?. callee) "expect".

(** What one visit adds to the queue: the visited node with its method when
    it is a call expression that is classified and not awaited. *)
Definition enqueued (n : Node) : list Invocation :=
  match detail n with
  | CallExpression _ =>
      match getMethodThatShouldBeAwaited n with
      | Some m => if isAwaited n then [] else [ {| node := n; method := m |} ]
      | None => []
      end
  | _ => []
  end.

(** What one visit leaves of the gate: an import statement keeps it open
    when its source is in the namespace, any other node does. *)
Definition keepsGate (n : Node) : bool :=
  match detail n with
  | ImportDeclaration d => isExpectFromStorybookImported d
  | _ => true
  end.

(** ** Kinds and field reads *)

Ltac by_kind x :=
  let p := fresh "p" in
  let r := fresh "r" in
  let d := fresh "d" in
  destruct x as [p r d]; destruct d; simpl in *; try discriminate; try reflexivity.

Lemma includes_In (l : list string) (s : string) :
  includes l s = true <-> In s l.
Proof.
  unfold includes. rewrite existsb_exists. split.
  - intros [x [Hin Heq]]. apply String.eqb_eq in Heq. now subst.
  - intros Hin. exists s. split; [assumption | apply String.eqb_refl].
Qed.

Lemma isIdentifier_name (o : option Node) :
  isIdentifier o = true <-> exists s, o ?. name = Some s.
Proof.
  destruct o as [[p r d]|]; [destruct d|]; cbn; split;
    solve [ discriminate | intros [s Hs]; discriminate | eauto ].
Qed.

Lemma functionLike_not_program (p : Node) :
  isFunctionLike p = true -> isProgram (Some p) = false.
Proof. unfold isFunctionLike. by_kind p. Qed.

Lemma functionLike_async (p : Node) :
  isFunctionLike p = true <-> exists a, async p = Some a.
Proof.
  unfold isFunctionLike, async. destruct p as [q r d]; destruct d; cbn;
    split; solve [ discriminate | intros [a Ha]; discriminate | eauto ].
Qed.

(** Whatever the classifier returns is an identifier. *)
Lemma getMethodThatShouldBeAwaited_identifier (expr m : Node) :
  getMethodThatShouldBeAwaited expr = Some m -> isIdentifier (Some m) = true.
Proof.
  unfold getMethodThatShouldBeAwaited.
  repeat match goal with
         | |- context [if ?c then _ else _] =>
             let E := fresh "E" in destruct c eqn:E
         end; intros H; try discriminate;
    repeat (apply andb_prop in E; destruct E as [E ?]);
    repeat match goal with
           | X : _ && _ = true |- _ => apply andb_prop in X; destruct X
           end;
    congruence.
Qed.

(** ** The call classifier *)

Lemma getMethodThatShouldBeAwaited_return_value (expr : Node) :
  isReturnValue expr = true -> getMethodThatShouldBeAwaited expr = None.
Proof.
  unfold isReturnValue, getMethodThatShouldBeAwaited. intros H. now rewrite H.
Qed.

Lemma call_not_identifier (o : option Node) :
  isCallExpression o = true -> isIdentifier o = false.
Proof. destruct o as [n|]; [by_kind n | discriminate]. Qed.

Lemma member_not_nonnull (o : option Node) :
  isMemberExpression o = true -> isTSNonNullExpression o = false.
Proof. destruct o as [n|]; [by_kind n | discriminate]. Qed.

Lemma member_not_identifier (o : option Node) :
  isMemberExpression o = true -> isIdentifier o = false.
Proof. destruct o as [n|]; [by_kind n | discriminate]. Qed.

Lemma identifier_not_member (o : option Node) :
  isIdentifier o = true -> isMemberExpression o = false.
Proof. destruct o as [n|]; [by_kind n | discriminate]. Qed.

Lemma identifier_not_nonnull (o : option Node) :
  isIdentifier o = true -> isTSNonNullExpression o = false.
Proof. destruct o as [n|]; [by_kind n | discriminate]. Qed.

(** C1, as the specification states it, fails: in [expect(button).toBe(1)]
    the callee is a member access on a call of [expect], the name [toBe] of
    its property matches neither the fixed names nor the [findBy] prefix, and
    the classifier still returns the property. *)
Lemma expect_chain_untracked_property_is_classified :
  isExpectChain (Samples.expect_toBe_call false) = true
  /\ callee (Samples.expect_toBe_call false) ?. property = Some Samples.toBe
  /\ name Samples.toBe = Some "toBe"
  /\ shouldAwait "toBe" = false
  /\ getMethodThatShouldBeAwaited (Samples.expect_toBe_call false) = Some Samples.toBe.
Proof. repeat split. Qed.

(** C1, amended: for a call whose callee is a member access on a call of an
    identifier named [expect], the classifier returns the outer property
    whenever that property is an identifier, whether or not its name matches
    the tracked set, unless the call is a return value (its parent is an
    arrow function or a return statement); it returns nothing when the
    property is not an identifier. *)
Theorem expect_chain_classified_by_property (expr : Node) :
  isExpectChain expr = true ->
  (isReturnValue expr = true -> getMethodThatShouldBeAwaited expr = None)
  /\ (isReturnValue expr = false ->
      isIdentifier (callee expr ?. property) = true ->
      getMethodThatShouldBeAwaited expr = callee expr ?. property)
  /\ (isIdentifier (callee expr ?. property) = false ->
      getMethodThatShouldBeAwaited expr = None).
Proof.
  unfold isExpectChain. intros H.
  apply andb_prop in H; destruct H as [H Hname].
  apply andb_prop in H; destruct H as [H Hid].
  apply andb_prop in H; destruct H as [Hmem Hcall].
  pose proof (call_not_identifier _ Hcall) as Hobj.
  pose proof (member_not_nonnull _ Hmem) as Hnn.
  pose proof (member_not_identifier _ Hmem) as Hci.
  split; [apply getMethodThatShouldBeAwaited_return_value|].
  split.
  - unfold isReturnValue, getMethodThatShouldBeAwaited. intros Hret Hprop.
    rewrite Hret, Hmem, Hobj, Hnn, Hprop, Hcall, Hid, Hname. cbn.
    destruct (shouldAwaitName (callee expr ?. property)); reflexivity.
  - unfold getMethodThatShouldBeAwaited. intros Hprop.
    rewrite Hmem, Hobj, Hnn, Hprop, Hci, Hcall, Hid. cbn.
    now destruct (isArrowFunctionExpression (parent expr) || isReturnStatement (parent expr)).
Qed.

Lemma expect_chain_classified_by_property_witness :
  isExpectChain (Samples.expect_toBe_call false) = true
  /\ getMethodThatShouldBeAwaited (Samples.expect_toBe_call false)
     = callee (Samples.expect_toBe_call false) ?. property.
Proof.
  split; [reflexivity|].
  apply (expect_chain_classified_by_property (Samples.expect_toBe_call false));
    reflexivity.
Defined.

(** C3: a call whose callee is a bare identifier with one of the tracked
    names, or a member access whose property is an identifier with a
    tracked name or a name that starts with [findBy], is classified, and
    what the classifier returns is an identifier (the callee itself, or the
    object or the property of the member access); unless the call's parent
    is an arrow function or a return statement, and then it returns
    nothing. *)
Theorem tracked_call_is_classified (expr : Node) :
  (isReturnValue expr = true -> getMethodThatShouldBeAwaited expr = None)
  /\ (isReturnValue expr = false ->
      (exists s, isIdentifier (callee expr) = true
                 /\ callee expr ?. name = Some s
                 /\ In s FUNCTIONS_TO_BE_AWAITED)
      \/ (exists s, isMemberExpression (callee expr) = true
                    /\ isIdentifier (callee expr ?. property) = true
                    /\ callee expr ?. property ?. name = Some s
                    /\ (In s FUNCTIONS_TO_BE_AWAITED \/ startsWith s "findBy" = true)) ->
      exists m, getMethodThatShouldBeAwaited expr = Some m
                /\ isIdentifier (Some m) = true
                /\ (Some m = callee expr
                    \/ Some m = callee expr ?. object
                    \/ Some m = callee expr ?. property)).
Proof.
  split; [apply getMethodThatShouldBeAwaited_return_value|].
  unfold isReturnValue. intros Hret [[s [Hid [Hs Hin]]] | [s [Hmem [Hid [Hs Hin]]]]].
  - assert (Hsa : shouldAwaitName (callee expr) = true).
    { unfold shouldAwaitName, shouldAwait. rewrite Hs.
      apply orb_true_iff. left. now apply includes_In. }
    destruct (callee expr) as [c|] eqn:Hc; [|discriminate].
    exists c. split; [|split; [assumption | now left]].
    unfold getMethodThatShouldBeAwaited.
    rewrite Hret, Hc, (identifier_not_member _ Hid), (identifier_not_nonnull _ Hid),
      Hid, Hsa. reflexivity.
  - assert (Hsa : shouldAwaitName (callee expr ?. property) = true).
    { unfold shouldAwaitName, shouldAwait. rewrite Hs.
      apply orb_true_iff. destruct Hin as [Hin | Hin];
        [left; now apply includes_In | now right]. }
    unfold getMethodThatShouldBeAwaited.
    rewrite Hret, Hmem, (member_not_nonnull _ Hmem), Hid, Hsa. cbn.
    destruct (isIdentifier (callee expr ?. object)
              && shouldAwaitName (callee expr ?. object)) eqn:Hobj.
    + apply andb_prop in Hobj. destruct Hobj as [Hoid _].
      destruct (callee expr ?. object) as [o|] eqn:Ho; [|discriminate].
      exists o. split; [reflexivity | split; [assumption | right; now left]].
    + destruct (callee expr ?. property) as [q|] eqn:Hq; [|discriminate].
      exists q. split; [reflexivity | split; [assumption | right; now right]].
Qed.

Lemma tracked_call_is_classified_witness :
  isReturnValue (Samples.findByRole_call false) = false
  /\ exists m,
      getMethodThatShouldBeAwaited (Samples.findByRole_call false) = Some m
      /\ isIdentifier (Some m) = true
      /\ (Some m = callee (Samples.findByRole_call false)
          \/ Some m = callee (Samples.findByRole_call false) ?. object
          \/ Some m = callee (Samples.findByRole_call false) ?. property).
Proof.
  split; [reflexivity|].
  apply (tracked_call_is_classified (Samples.findByRole_call false)).
  - reflexivity.
  - right. exists "findByRole". repeat split. right. reflexivity.
Defined.

(** ** The scope resolver *)

Lemma getClosestFunctionAncestor_unfold (node : Node) :
  getClosestFunctionAncestor node =
  match parent node with
  | None => None
  | Some p =>
      if isProgram (Some p) then None
      else if isFunctionLike p then Some p
      else getClosestFunctionAncestor p
  end.
Proof. destruct node as [[p|] r d]; reflexivity. Qed.

Lemma ancestors_unfold (node : Node) :
  ancestors node =
  match parent node with
  | None => []
  | Some p => p :: ancestors p
  end.
Proof. destruct node as [[p|] r d]; reflexivity. Qed.

Lemma getClosestFunctionAncestor_through (between : list Node) :
  forall node rest,
    ancestors node = between ++ rest ->
    Forall passedThrough between ->
    getClosestFunctionAncestor node =
    match rest with
    | [] => None
    | f :: _ =>
        if isProgram (Some f) then None
        else if isFunctionLike f then Some f
        else getClosestFunctionAncestor f
    end.
Proof.
  induction between as [|a between IH]; intros node rest Hanc Hall.
  - rewrite getClosestFunctionAncestor_unfold. rewrite ancestors_unfold in Hanc.
    cbn in Hanc. destruct (parent node) as [p|].
    + destruct rest as [|f rest']; [discriminate|]. now injection Hanc as -> _.
    + now subst rest.
  - rewrite getClosestFunctionAncestor_unfold. rewrite ancestors_unfold in Hanc.
    destruct (parent node) as [p|]; [|discriminate].
    cbn in Hanc. injection Hanc as -> Hanc.
    inversion Hall as [|? ? [Hprog Hfun] Hall']; subst.
    rewrite Hprog, Hfun. now apply IH.
Qed.

(** C7: the scope resolver returns nothing when the node has no parent or
    its parent is the program root, returns the parent when it is an arrow
    function, a function expression or a function declaration, and
    otherwise gives what it gives from the parent; so, whatever the number
    of nodes in between, it yields the nearest function among the
    ancestors, and nothing when the program root or the end of the chain
    comes first. *)
Theorem getClosestFunctionAncestor_nearest (node : Node) :
  (parent node = None -> getClosestFunctionAncestor node = None)
  /\ (forall p, parent node = Some p -> isProgram (Some p) = true ->
                getClosestFunctionAncestor node = None)
  /\ (forall p, parent node = Some p -> isFunctionLike p = true ->
                getClosestFunctionAncestor node = Some p)
  /\ (forall p, parent node = Some p -> passedThrough p ->
                getClosestFunctionAncestor node = getClosestFunctionAncestor p)
  /\ (forall between f above,
         ancestors node = between ++ f :: above ->
         Forall passedThrough between ->
         (isFunctionLike f = true -> getClosestFunctionAncestor node = Some f)
         /\ (isProgram (Some f) = true -> getClosestFunctionAncestor node = None))
  /\ (Forall passedThrough (ancestors node) ->
      getClosestFunctionAncestor node = None).
Proof.
  repeat apply conj.
  - intros H. rewrite getClosestFunctionAncestor_unfold. now rewrite H.
  - intros p H Hprog. rewrite getClosestFunctionAncestor_unfold. now rewrite H, Hprog.
  - intros p H Hfun. rewrite getClosestFunctionAncestor_unfold.
    now rewrite H, (functionLike_not_program _ Hfun), Hfun.
  - intros p H [Hprog Hfun]. rewrite getClosestFunctionAncestor_unfold.
    now rewrite H, Hprog, Hfun.
  - intros between f above Hanc Hall.
    rewrite (getClosestFunctionAncestor_through between node (f :: above) Hanc Hall).
    split.
    + intros Hfun. now rewrite (functionLike_not_program _ Hfun), Hfun.
    + intros Hprog. now rewrite Hprog.
  - intros Hall.
    apply (getClosestFunctionAncestor_through (ancestors node) node []);
      [now rewrite app_nil_r | assumption].
Qed.

Lemma getClosestFunctionAncestor_nearest_witness :
  ancestors (Samples.click_call false)
  = [Samples.statement false (70, 93); Samples.block false]
      ++ Samples.play_fn false :: ancestors (Samples.play_fn false)
  /\ Forall passedThrough [Samples.statement false (70, 93); Samples.block false]
  /\ isFunctionLike (Samples.play_fn false) = true
  /\ getClosestFunctionAncestor (Samples.click_call false) = Some (Samples.play_fn false).
Proof.
  assert (Hall : Forall passedThrough
                   [Samples.statement false (70, 93); Samples.block false])
    by (repeat constructor).
  split; [reflexivity|]. split; [exact Hall|]. split; [reflexivity|].
  destruct (getClosestFunctionAncestor_nearest (Samples.click_call false))
    as (_ & _ & _ & _ & H & _).
  apply (H [Samples.statement false (70, 93); Samples.block false]
           (Samples.play_fn false) (ancestors (Samples.play_fn false)));
    [reflexivity | exact Hall | reflexivity].
Defined.

(** Whatever the scope resolver returns is a function. *)
Lemma getClosestFunctionAncestor_functionLike (node f : Node) :
  getClosestFunctionAncestor node = Some f -> isFunctionLike f = true.
Proof.
  remember (ancestors node) as l eqn:Hl. revert node Hl.
  induction l as [|a l IH]; intros node Hl; rewrite ancestors_unfold in Hl;
    rewrite getClosestFunctionAncestor_unfold;
    destruct (parent node) as [p|]; try discriminate.
  injection Hl as -> ->.
  destruct (isProgram (Some p)); [discriminate|].
  destruct (isFunctionLike p) eqn:Hfun.
  - intros H. now injection H as <-.
  - now apply IH.
Qed.

(** ** The traversal controller *)

Lemma on_CallExpression_cases (n : Node) (st : State) :
  (exists m, getMethodThatShouldBeAwaited n = Some m
             /\ isAwaited n = false
             /\ on_CallExpression n st =
                {| isImportingFromStorybookExpect := isImportingFromStorybookExpect st;
                   invocationsThatShouldBeAwaited :=
                     invocationsThatShouldBeAwaited st ++ [ {| node := n; method := m |} ] |})
  \/ ((getMethodThatShouldBeAwaited n = None \/ isAwaited n = true)
      /\ on_CallExpression n st = st).
Proof.
  unfold on_CallExpression, isAwaited.
  destruct (getMethodThatShouldBeAwaited n) as [m|]; [|right; split; [now left | reflexivity]].
  destruct (isAwaitExpression (parent n)); cbn;
    [right; split; [now right | reflexivity]|].
  destruct (isAwaitExpression (parent n ?. parent)); cbn;
    [right; split; [now right | reflexivity]|].
  left. exists m. repeat split.
Qed.

Lemma on_CallExpression_flag (n : Node) (st : State) :
  isImportingFromStorybookExpect (on_CallExpression n st)
  = isImportingFromStorybookExpect st.
Proof.
  destruct (on_CallExpression_cases n st) as [(m & _ & _ & ->) | (_ & ->)];
    reflexivity.
Qed.

Lemma on_ImportDeclaration_flag (d : ImportDeclarationNode) (st : State) :
  isImportingFromStorybookExpect (on_ImportDeclaration d st)
  = isImportingFromStorybookExpect st && isExpectFromStorybookImported d.
Proof.
  unfold on_ImportDeclaration. destruct (isExpectFromStorybookImported d); cbn.
  - now rewrite andb_true_r.
  - now rewrite andb_false_r.
Qed.

Lemma on_ImportDeclaration_queue (d : ImportDeclarationNode) (st : State) :
  invocationsThatShouldBeAwaited (on_ImportDeclaration d st)
  = invocationsThatShouldBeAwaited st.
Proof.
  unfold on_ImportDeclaration. now destruct (isExpectFromStorybookImported d).
Qed.

Lemma visit_flag_false (st : State) (n : Node) :
  isImportingFromStorybookExpect st = false ->
  isImportingFromStorybookExpect (visit st n) = false.
Proof.
  intros H. unfold visit. destruct (detail n); try assumption.
  - now rewrite on_CallExpression_flag.
  - now rewrite on_ImportDeclaration_flag, H.
Qed.

Lemma traverse_flag_false (nodes : list Node) :
  forall st,
    isImportingFromStorybookExpect st = false ->
    isImportingFromStorybookExpect (traverse nodes st) = false.
Proof.
  unfold traverse. induction nodes as [|n nodes IH]; intros st H; cbn.
  - assumption.
  - apply IH. now apply visit_flag_false.
Qed.

Lemma visit_queued (st : State) (n : Node) :
  Forall queued (invocationsThatShouldBeAwaited st) ->
  Forall queued (invocationsThatShouldBeAwaited (visit st n)).
Proof.
  intros H. unfold visit. destruct (detail n); try assumption.
  - destruct (on_CallExpression_cases n st) as [(m & Hm & Haw & ->) | (_ & ->)];
      [|assumption].
    cbn. apply Forall_app. split; [assumption|].
    constructor; [|constructor]. split; assumption.
  - now rewrite on_ImportDeclaration_queue.
Qed.

Lemma traverse_queued (nodes : list Node) :
  forall st,
    Forall queued (invocationsThatShouldBeAwaited st) ->
    Forall queued (invocationsThatShouldBeAwaited (traverse nodes st)).
Proof.
  unfold traverse. induction nodes as [|n nodes IH]; intros st H; cbn.
  - assumption.
  - apply IH. now apply visit_queued.
Qed.

Lemma on_Program_exit_gated (st : State) :
  isImportingFromStorybookExpect st = false -> on_Program_exit st = [].
Proof. unfold on_Program_exit. now intros ->. Qed.

Lemma on_Program_exit_open (st : State) :
  isImportingFromStorybookExpect st = true ->
  on_Program_exit st = map report (invocationsThatShouldBeAwaited st).
Proof.
  unfold on_Program_exit. intros ->.
  now destruct (invocationsThatShouldBeAwaited st).
Qed.

Lemma on_Program_exit_from_queue (st : State) (r : ReportDescriptor) :
  In r (on_Program_exit st) ->
  exists i, In i (invocationsThatShouldBeAwaited st) /\ r = report i.
Proof.
  destruct (isImportingFromStorybookExpect st) eqn:Hflag.
  - rewrite (on_Program_exit_open _ Hflag), in_map_iff.
    intros [i [<- Hin]]. now exists i.
  - now rewrite (on_Program_exit_gated _ Hflag).
Qed.

(** Every report of a file is the report of a queued invocation. *)
Lemma lint_from_queued (nodes : list Node) (r : ReportDescriptor) :
  In r (lint nodes) -> exists i, queued i /\ r = report i.
Proof.
  unfold lint. intros H.
  apply on_Program_exit_from_queue in H. destruct H as [i [Hin ->]].
  exists i. split; [|reflexivity].
  assert (Hq : Forall queued (invocationsThatShouldBeAwaited (traverse nodes create)))
    by (apply traverse_queued; constructor).
  rewrite Forall_forall in Hq. now apply Hq.
Qed.

Lemma awaited_not_reported (nodes : list Node) (n : Node) (r : ReportDescriptor) :
  isAwaited n = true -> In r (lint nodes) -> report_node r <> n.
Proof.
  intros Haw Hin Heq. apply lint_from_queued in Hin.
  destruct Hin as [i [[_ Hnot] ->]]. cbn in Heq. congruence.
Qed.

(** C8: the gate flag starts true, and once it is false no visitor sets it
    back: neither the [ImportDeclaration] visitor nor the [CallExpression]
    visitor, so it stays false through every further sequence of visits.
    An import from outside the namespace makes it false. *)
Theorem gate_flag_only_downgrades :
  isImportingFromStorybookExpect create = true
  /\ (forall st d,
         isImportingFromStorybookExpect st = false ->
         isImportingFromStorybookExpect (on_ImportDeclaration d st) = false)
  /\ (forall st n,
         isImportingFromStorybookExpect st = false ->
         isImportingFromStorybookExpect (on_CallExpression n st) = false)
  /\ (forall st nodes,
         isImportingFromStorybookExpect st = false ->
         isImportingFromStorybookExpect (traverse nodes st) = false)
  /\ (forall st d,
         startsWith (value (source d)) "@storybook/" = false ->
         isImportingFromStorybookExpect (on_ImportDeclaration d st) = false).
Proof.
  repeat apply conj.
  - reflexivity.
  - intros st d H. now rewrite on_ImportDeclaration_flag, H.
  - intros st n H. now rewrite on_CallExpression_flag.
  - intros st nodes H. now apply traverse_flag_false.
  - intros st d H. rewrite on_ImportDeclaration_flag.
    unfold isExpectFromStorybookImported. rewrite H. apply andb_false_r.
Qed.

Lemma gate_flag_only_downgrades_witness :
  isImportingFromStorybookExpect
    (traverse [Samples.import_from "some-other-lib" (0, 30)] create) = false
  /\ isImportingFromStorybookExpect
       (traverse [Samples.import_from "@storybook/test" (31, 39); Samples.top_play]
                 (traverse [Samples.import_from "some-other-lib" (0, 30)] create))
     = false.
Proof.
  destruct gate_flag_only_downgrades as (_ & _ & _ & H & _).
  split; [reflexivity|].
  apply (H (traverse [Samples.import_from "some-other-lib" (0, 30)] create)
           [Samples.import_from "@storybook/test" (31, 39); Samples.top_play]).
  reflexivity.
Defined.

(** C2: when some import statement of the file has a source that does not
    start with [@storybook/], the file gets no diagnostic at all, wherever
    that import comes in the walk and whatever was queued before or after
    it. *)
Theorem foreign_import_silences_file (nodes : list Node) (n : Node)
        (d : ImportDeclarationNode) :
  In n nodes ->
  detail n = ImportDeclaration d ->
  startsWith (value (source d)) "@storybook/" = false ->
  lint nodes = [].
Proof.
  intros Hin Hd Hsrc. apply in_split in Hin. destruct Hin as [before [after ->]].
  unfold lint, traverse. rewrite fold_left_app. cbn.
  apply on_Program_exit_gated. apply traverse_flag_false.
  unfold visit. rewrite Hd, on_ImportDeclaration_flag.
  unfold isExpectFromStorybookImported. rewrite Hsrc. apply andb_false_r.
Qed.

Lemma foreign_import_silences_file_witness :
  invocationsThatShouldBeAwaited
    (traverse [Samples.top_play; Samples.click_call false] create) <> []
  /\ lint [Samples.top_play; Samples.click_call false;
           Samples.import_from "some-other-lib" (140, 170)] = [].
Proof.
  split; [discriminate|].
  apply (foreign_import_silences_file
           [Samples.top_play; Samples.click_call false;
            Samples.import_from "some-other-lib" (140, 170)]
           (Samples.import_from "some-other-lib" (140, 170))
           {| source := {| value := "some-other-lib" |} |}).
  - right. right. left. reflexivity.
  - reflexivity.
  - reflexivity.
Defined.

Lemma visit_keeps_queue (st : State) (n : Node) (i : Invocation) :
  In i (invocationsThatShouldBeAwaited st) ->
  In i (invocationsThatShouldBeAwaited (visit st n)).
Proof.
  intros H. unfold visit. destruct (detail n); try assumption.
  - destruct (on_CallExpression_cases n st) as [(m & _ & _ & ->) | (_ & ->)];
      [|assumption].
    cbn. apply in_or_app. now left.
  - now rewrite on_ImportDeclaration_queue.
Qed.

Lemma traverse_keeps_queue (nodes : list Node) (i : Invocation) :
  forall st,
    In i (invocationsThatShouldBeAwaited st) ->
    In i (invocationsThatShouldBeAwaited (traverse nodes st)).
Proof.
  unfold traverse. induction nodes as [|n nodes IH]; intros st H; cbn.
  - assumption.
  - apply IH. now apply visit_keeps_queue.
Qed.

(** A visited call that is classified and not awaited is in the queue at the
    end of the walk. *)
Lemma traverse_enqueues (nodes : list Node) (n c m : Node) :
  In n nodes ->
  detail n = CallExpression c ->
  getMethodThatShouldBeAwaited n = Some m ->
  isAwaited n = false ->
  In {| node := n; method := m |}
     (invocationsThatShouldBeAwaited (traverse nodes create)).
Proof.
  intros Hin Hd Hm Haw. apply in_split in Hin. destruct Hin as [before [after ->]].
  unfold traverse. rewrite fold_left_app. cbn.
  apply traverse_keeps_queue. unfold visit at 1. rewrite Hd.
  destruct (on_CallExpression_cases n (fold_left visit before create))
    as [(m' & Hm' & _ & ->) | ([Hnone | Htrue] & _)]; try congruence.
  cbn. apply in_or_app. right. left. congruence.
Qed.

Lemma isAwaited_spec (n : Node) :
  isAwaited n = true <->
  isAwaitExpression (parent n) = true
  \/ isAwaitExpression (parent n ?. parent) = true.
Proof. unfold isAwaited. apply orb_true_iff. Qed.

(** C4: a classified call counts as awaited exactly when its parent or its
    grandparent is an await expression: then, and only then, the
    [CallExpression] visitor leaves the state as it was; otherwise it
    appends the call with its method to the queue.  An awaited call is
    never the anchor of a diagnostic; a call that is not awaited is the
    anchor of one whenever it is visited in a file that is not gated
    out. *)
Theorem awaited_iff_parent_or_grandparent_awaits (n m : Node) :
  getMethodThatShouldBeAwaited n = Some m ->
  (forall st,
      (isAwaitExpression (parent n) = true
       \/ isAwaitExpression (parent n ?. parent) = true)
      <-> on_CallExpression n st = st)
  /\ (forall st,
         ~ (isAwaitExpression (parent n) = true
            \/ isAwaitExpression (parent n ?. parent) = true)
         <-> invocationsThatShouldBeAwaited (on_CallExpression n st)
             = invocationsThatShouldBeAwaited st ++ [ {| node := n; method := m |} ])
  /\ (forall nodes,
         isAwaitExpression (parent n) = true
         \/ isAwaitExpression (parent n ?. parent) = true ->
         forall r, In r (lint nodes) -> report_node r <> n)
  /\ (forall nodes c,
         ~ (isAwaitExpression (parent n) = true
            \/ isAwaitExpression (parent n ?. parent) = true) ->
         In n nodes ->
         detail n = CallExpression c ->
         isImportingFromStorybookExpect (traverse nodes create) = true ->
         exists r, In r (lint nodes) /\ report_node r = n).
Proof.
  intros Hm.
  assert (Hgrow : forall (q : list Invocation) x, q <> q ++ [x]).
  { intros q x Heq. apply (f_equal (@List.length _)) in Heq.
    rewrite length_app in Heq. cbn in Heq. lia. }
  repeat apply conj.
  - intros st. rewrite <- isAwaited_spec.
    destruct (on_CallExpression_cases n st)
      as [(m' & _ & Haw & Hst) | ([Hnone | Haw] & Hst)]; try congruence.
    + split; [congruence|]. intros Heq. rewrite Heq in Hst.
      apply (f_equal invocationsThatShouldBeAwaited) in Hst. cbn in Hst.
      now apply Hgrow in Hst.
    + now split.
  - intros st. rewrite <- isAwaited_spec.
    destruct (on_CallExpression_cases n st)
      as [(m' & Hm' & Haw & ->) | ([Hnone | Haw] & ->)]; try congruence.
    + cbn. split; [intros _; congruence | congruence].
    + split; [congruence|]. intros Heq. now apply Hgrow in Heq.
  - intros nodes Haw r Hin. apply isAwaited_spec in Haw.
    now apply awaited_not_reported with (nodes := nodes).
  - intros nodes c Haw Hin Hd Hflag. rewrite <- isAwaited_spec in Haw.
    apply not_true_is_false in Haw.
    exists (report {| node := n; method := m |}). split; [|reflexivity].
    unfold lint. rewrite (on_Program_exit_open _ Hflag).
    apply in_map. now apply traverse_enqueues with (c := c).
Qed.

Lemma awaited_iff_parent_or_grandparent_awaits_witness :
  getMethodThatShouldBeAwaited Samples.play_in_log
  = Some (Samples.ident "play" (80, 84))
  /\ isAwaitExpression (parent Samples.play_in_log ?. parent) = true
  /\ on_CallExpression Samples.play_in_log create = create.
Proof.
  split; [reflexivity|]. split; [reflexivity|].
  destruct (awaited_iff_parent_or_grandparent_awaits
              Samples.play_in_log (Samples.ident "play" (80, 84)) eq_refl)
    as (H & _).
  apply (H create). right. reflexivity.
Defined.

(** C10: the grandparent test looks at no more than the kind of the
    grandparent: a call whose grandparent is an await expression is left
    out of the queue and is never the anchor of a diagnostic, whatever the
    node between them is. *)
Theorem grandparent_await_accepts_any_parent (n p g : Node) :
  parent n = Some p ->
  parent p = Some g ->
  isAwaitExpression (Some g) = true ->
  (forall st, on_CallExpression n st = st)
  /\ (forall nodes r, In r (lint nodes) -> report_node r <> n).
Proof.
  intros Hp Hg Hawait.
  assert (Haw : isAwaited n = true).
  { unfold isAwaited. rewrite Hp. cbn. rewrite Hg, Hawait. apply orb_true_r. }
  split.
  - intros st.
    destruct (on_CallExpression_cases n st) as [(m & _ & Hnot & _) | (_ & Hst)];
      [congruence | assumption].
  - intros nodes r. now apply awaited_not_reported.
Qed.

Lemma grandparent_await_accepts_any_parent_witness :
  parent Samples.play_in_log = Some Samples.awaited_log
  /\ isCallExpression (Some Samples.awaited_log) = true
  /\ isTSNonNullExpression (Some Samples.awaited_log) = false
  /\ getMethodThatShouldBeAwaited Samples.play_in_log
     = Some (Samples.ident "play" (80, 84))
  /\ on_CallExpression Samples.play_in_log create = create
  /\ lint [Samples.awaited_log; Samples.play_in_log] = [].
Proof.
  do 4 (split; [reflexivity|]).
  split; [|reflexivity].
  apply (grandparent_await_accepts_any_parent
           Samples.play_in_log Samples.awaited_log
           (mkNode (Some (Samples.statement true (70, 87))) (70, 87) AwaitExpression));
    reflexivity.
Defined.

(** ** The diagnostic emitter *)

Lemma Forall2_map_of (A B : Type) (f : A -> B) (P : A -> Prop) (R : A -> B -> Prop) :
  (forall a, P a -> R a (f a)) ->
  forall l, Forall P l -> Forall2 R l (map f l).
Proof.
  intros HR l H. induction H as [|a l Ha Hl IH]; cbn; constructor; auto.
Qed.

(** C5: when the file is not gated out, the diagnostics are, in order, one
    for each queued invocation: anchored at its call node, with the name of
    the matched identifier as message data, with a fix (which starts by
    inserting [await ] before the call), and with one suggestion whose fix
    is the fix of the diagnostic. *)
Theorem one_diagnostic_per_queued_invocation (nodes : list Node) :
  isImportingFromStorybookExpect (traverse nodes create) = true ->
  Forall2
    (fun i r =>
       report_node r = node i
       /\ messageId r = "interactionShouldBeAwaited"
       /\ getMethodThatShouldBeAwaited (node i) = Some (method i)
       /\ (exists s, name (method i) = Some s
                     /\ data r = {| data_method := Some s |})
       /\ suggest r = [ {| suggest_messageId := "fixSuggestion";
                           suggest_fix := report_fix r |} ]
       /\ (forall RuleFix (fixer : RuleFixer RuleFix),
              exists also,
                report_fix r RuleFix fixer
                = insertTextBefore fixer (node i) "await " :: also))
    (invocationsThatShouldBeAwaited (traverse nodes create))
    (lint nodes).
Proof.
  intros Hflag. unfold lint. rewrite (on_Program_exit_open _ Hflag).
  apply Forall2_map_of with (P := queued);
    [|apply traverse_queued; constructor].
  intros i [Hm _]. repeat apply conj; try reflexivity; try assumption.
  - pose proof (getMethodThatShouldBeAwaited_identifier _ _ Hm) as Hid.
    apply isIdentifier_name in Hid. destruct Hid as [s Hs]. cbn in Hs.
    exists s. split; [assumption|]. cbn. now rewrite Hs.
  - intros RuleFix fixer. cbn. unfold fixFn.
    destruct (parentFnNeedsAsync (getClosestFunctionAncestor (node i)));
      [destruct (getClosestFunctionAncestor (node i))|]; cbn; eauto.
Qed.

Lemma one_diagnostic_per_queued_invocation_witness :
  isImportingFromStorybookExpect
    (traverse [Samples.import_from "@storybook/test" (0, 30);
               Samples.click_call false; Samples.top_play] create) = true
  /\ map (fun i => (node i, name (method i)))
         (invocationsThatShouldBeAwaited
            (traverse [Samples.import_from "@storybook/test" (0, 30);
                       Samples.click_call false; Samples.top_play] create))
     = [(Samples.click_call false, Some "userEvent"); (Samples.top_play, Some "play")]
  /\ List.length (lint [Samples.import_from "@storybook/test" (0, 30);
                        Samples.click_call false; Samples.top_play]) = 2.
Proof.
  split; [reflexivity|]. split; [reflexivity|].
  pose proof (one_diagnostic_per_queued_invocation
                [Samples.import_from "@storybook/test" (0, 30);
                 Samples.click_call false; Samples.top_play] eq_refl) as H.
  apply Forall2_length in H. rewrite <- H. reflexivity.
Defined.

Lemma lint_is_map_report (nodes : list Node) :
  exists q, lint nodes = map report q.
Proof.
  unfold lint.
  destruct (isImportingFromStorybookExpect (traverse nodes create)) eqn:Hflag.
  - rewrite (on_Program_exit_open _ Hflag). now eexists.
  - rewrite (on_Program_exit_gated _ Hflag). now exists [].
Qed.

Lemma asyncInsertions_report (i : Invocation) :
  asyncInsertions (report_fix (report i)) = markerOf (report i).
Proof.
  unfold asyncInsertions, markerOf. cbn. unfold fixFn, parentFnNeedsAsync.
  destruct (getClosestFunctionAncestor (node i)) as [f|]; [|reflexivity].
  destruct (async f) as [[|]|]; reflexivity.
Qed.

(** C6, as the specification states it, fails: [userEvent.click(button)]
    and [expect(button).toBe(1)] are two statements of one play function
    that is not asynchronous; both are reported, and the two fixes ask for
    [async ] before that function twice, once each. *)
Lemma async_marker_requested_twice_for_one_function :
  map report_node (lint [Samples.click_call false; Samples.expect_toBe_call false])
  = [Samples.click_call false; Samples.expect_toBe_call false]
  /\ getClosestFunctionAncestor (Samples.click_call false) = Some (Samples.play_fn false)
  /\ getClosestFunctionAncestor (Samples.expect_toBe_call false)
     = Some (Samples.play_fn false)
  /\ async (Samples.play_fn false) = Some false
  /\ markerInsertions (lint [Samples.click_call false; Samples.expect_toBe_call false])
     = [ (Samples.play_fn false, "async "); (Samples.play_fn false, "async ") ].
Proof. repeat split. Qed.

(** C6, amended: in every report, when the nearest enclosing function of
    the call exists and is not marked asynchronous, the fix of that report
    is the insertion of [await ] before the call followed by one insertion
    of [async ] before that function, and no other.  When there is no
    enclosing function, or it is asynchronous already, the fix is the
    insertion of [await ] alone.  There is no other case: an enclosing
    function always says whether it is asynchronous.  The marker is asked
    for once for each report, not once for each function: the insertions
    of the marker of a file are, in order, one for every report whose
    call has a nearest enclosing function that is not asynchronous. *)
Theorem fix_marks_enclosing_function_per_report (nodes : list Node) :
  (forall r,
      In r (lint nodes) ->
      (forall f,
          getClosestFunctionAncestor (report_node r) = Some f ->
          async f = Some false ->
          (forall RuleFix (fixer : RuleFixer RuleFix),
              report_fix r RuleFix fixer
              = [ insertTextBefore fixer (report_node r) "await ";
                  insertTextBefore fixer f "async " ])
          /\ asyncInsertions (report_fix r) = [ (f, "async ") ])
      /\ (getClosestFunctionAncestor (report_node r) = None
          \/ (exists f, getClosestFunctionAncestor (report_node r) = Some f
                        /\ async f = Some true) ->
          (forall RuleFix (fixer : RuleFixer RuleFix),
              report_fix r RuleFix fixer
              = [ insertTextBefore fixer (report_node r) "await " ])
          /\ asyncInsertions (report_fix r) = [])
      /\ (getClosestFunctionAncestor (report_node r) = None
          \/ exists f a, getClosestFunctionAncestor (report_node r) = Some f
                         /\ async f = Some a))
  /\ markerInsertions (lint nodes) = flat_map markerOf (lint nodes)
  /\ List.length (markerInsertions (lint nodes))
     = List.length
         (filter (fun r => parentFnNeedsAsync (getClosestFunctionAncestor (report_node r)))
                 (lint nodes)).
Proof.
  assert (Hall : markerInsertions (lint nodes) = flat_map markerOf (lint nodes)).
  { destruct (lint_is_map_report nodes) as [q ->]. unfold markerInsertions.
    induction q as [|i q IH]; [reflexivity|].
    cbn [map flat_map]. now rewrite IH, asyncInsertions_report. }
  split; [|split; [exact Hall|]].
  - intros r Hin. apply lint_from_queued in Hin. destruct Hin as [i [_ ->]].
    unfold asyncInsertions. cbn. unfold fixFn. repeat apply conj.
    + intros f -> Hasync. unfold parentFnNeedsAsync. rewrite Hasync. cbn.
      split; reflexivity.
    + intros [-> | [f [-> Hasync]]]; unfold parentFnNeedsAsync;
        [|rewrite Hasync]; cbn; split; reflexivity.
    + destruct (getClosestFunctionAncestor (node i)) as [f|] eqn:Hf; [|now left].
      right. apply getClosestFunctionAncestor_functionLike in Hf.
      apply functionLike_async in Hf. destruct Hf as [a Ha]. now exists f, a.
  - rewrite Hall. clear Hall. induction (lint nodes) as [|r rs IH]; [reflexivity|].
    cbn [flat_map filter]. rewrite length_app, IH. unfold markerOf.
    destruct (getClosestFunctionAncestor (report_node r)) as [f|]; [|reflexivity].
    destruct (parentFnNeedsAsync (Some f)); reflexivity.
Qed.

Lemma fix_marks_enclosing_function_per_report_witness :
  In (report {| node := Samples.click_call false;
                method := Samples.ident "userEvent" (70, 79) |})
     (lint [Samples.click_call false; Samples.expect_toBe_call false])
  /\ getClosestFunctionAncestor (Samples.click_call false) = Some (Samples.play_fn false)
  /\ async (Samples.play_fn false) = Some false
  /\ asyncInsertions
       (report_fix (report {| node := Samples.click_call false;
                              method := Samples.ident "userEvent" (70, 79) |}))
     = [ (Samples.play_fn false, "async ") ].
Proof.
  assert (Hin : In (report {| node := Samples.click_call false;
                              method := Samples.ident "userEvent" (70, 79) |})
                   (lint [Samples.click_call false; Samples.expect_toBe_call false]))
    by (left; reflexivity).
  split; [exact Hin|]. split; [reflexivity|]. split; [reflexivity|].
  destruct (fix_marks_enclosing_function_per_report
              [Samples.click_call false; Samples.expect_toBe_call false])
    as (H & _ & _).
  destruct (H _ Hin) as (Hf & _ & _).
  apply (Hf (Samples.play_fn false)); reflexivity.
Defined.

(** Each report stands alone: two calls of one function that is not
    asynchronous give two reports, and the fix of each carries its own
    insertion of the marker before that function.  Keeping one of them
    when both fixes are applied is left to the host. *)
Example two_reports_of_one_function :
  map (fun r => report_fix r _ recorder)
      (lint [Samples.click_call false; Samples.findByRole_call false])
  = [ [ (Samples.click_call false, "await "); (Samples.play_fn false, "async ") ];
      [ (Samples.findByRole_call false, "await "); (Samples.play_fn false, "async ") ] ].
Proof. reflexivity. Qed.

(** ** Analysing the patched file again *)




(** * Further properties of the rule *)

(** ** The tracked names *)

Lemma prefix_append (p s : string) :
  String.prefix p s = true <-> exists t, s = String.append p t.
Proof.
  revert s. induction p as [|a p IH]; intros s.
  - split; [intros _; now exists s | intros _; now destruct s].
  - destruct s as [|b s]; cbn.
    + split; [discriminate | intros [t Ht]; discriminate].
    + destruct (Ascii.ascii_dec a b) as [->|Hab].
      * rewrite IH. split; intros [t Ht]; exists t; congruence.
      * split; [discriminate | intros [t Ht]; congruence].
Qed.

(** X1: a name is tracked exactly when it is one of the seven fixed names,
    as a whole, or begins with [findBy]; the fixed names are no prefixes. *)
Theorem shouldAwait_iff (s : string) :
  shouldAwait s = true <->
  In s FUNCTIONS_TO_BE_AWAITED \/ exists t, s = String.append "findBy" t.
Proof.
  unfold shouldAwait, startsWith.
  now rewrite orb_true_iff, includes_In, prefix_append.
Qed.

(** ** The classifier, callee by callee *)

Lemma getMethodThatShouldBeAwaited_callee (expr c : Node) :
  isReturnValue expr = false ->
  callee expr = Some c ->
  getMethodThatShouldBeAwaited expr =
  if isMemberExpression (Some c)
     && isIdentifier (object c)
     && shouldAwaitName (object c) then
    object c
  else if isTSNonNullExpression (Some c)
          && isMemberExpression (expression c)
          && isIdentifier (expression c ?. property)
          && shouldAwaitName (expression c ?. property) then
    expression c ?. property
  else if isMemberExpression (Some c)
          && isIdentifier (property c)
          && shouldAwaitName (property c) then
    property c
  else if isMemberExpression (Some c)
          && isCallExpression (object c)
          && isIdentifier (object c ?. callee)
          && isIdentifier (property c)
          && nameIs (object c ?. callee) "expect" then
    property c
  else if isIdentifier (Some c) && shouldAwaitName (Some c) then
    Some c
  else
    None.
Proof.
  unfold isReturnValue, getMethodThatShouldBeAwaited. now intros -> ->.
Qed.

(** X2: for a call of a member access [o.p] that is not a return value, the
    classifier returns the object [o] when it is an identifier with a
    tracked name, whatever the property is; otherwise the property [p] when
    it is an identifier and either its name is tracked or [o] is a call of
    [expect]; otherwise nothing. *)
Theorem member_callee_classification (expr c o p : Node) :
  isReturnValue expr = false ->
  callee expr = Some c ->
  detail c = MemberExpression o p ->
  getMethodThatShouldBeAwaited expr =
  if isIdentifier (Some o) && shouldAwaitName (Some o) then Some o
  else if isIdentifier (Some p) && (shouldAwaitName (Some p) || isExpectCall (Some o))
       then Some p
       else None.
Proof.
  intros Hret Hc Hd. rewrite (getMethodThatShouldBeAwaited_callee _ _ Hret Hc).
  unfold isExpectCall.
  replace (object c) with (Some o) by (unfold object; now rewrite Hd).
  replace (property c) with (Some p) by (unfold property; now rewrite Hd).
  replace (isMemberExpression (Some c)) with true by (cbn; now rewrite Hd).
  replace (isTSNonNullExpression (Some c)) with false by (cbn; now rewrite Hd).
  replace (isIdentifier (Some c)) with false by (cbn; now rewrite Hd).
  destruct (isIdentifier (Some o)), (shouldAwaitName (Some o)),
    (isIdentifier (Some p)), (shouldAwaitName (Some p)),
    (isCallExpression (Some o)), (isIdentifier (Some o ?. callee)),
    (nameIs (Some o ?. callee) "expect"); reflexivity.
Qed.

Lemma member_callee_classification_witness :
  isReturnValue (Samples.click_call false) = false
  /\ getMethodThatShouldBeAwaited (Samples.click_call false)
     = Some (Samples.ident "userEvent" (70, 79)).
Proof.
  split; [reflexivity|].
  rewrite (member_callee_classification
             (Samples.click_call false) Samples.userEvent_click
             (Samples.ident "userEvent" (70, 79)) (Samples.ident "click" (80, 85))
             eq_refl eq_refl eq_refl).
  reflexivity.
Defined.

(** X3: a call of a bare identifier that is not a return value is
    classified exactly when the name of the identifier is tracked, and the
    identifier is what the classifier returns. *)
Theorem identifier_callee_classification (expr c : Node) (s : string) :
  isReturnValue expr = false ->
  callee expr = Some c ->
  detail c = Identifier s ->
  getMethodThatShouldBeAwaited expr = if shouldAwait s then Some c else None.
Proof.
  intros Hret Hc Hd. rewrite (getMethodThatShouldBeAwaited_callee _ _ Hret Hc).
  replace (isMemberExpression (Some c)) with false by (cbn; now rewrite Hd).
  replace (isTSNonNullExpression (Some c)) with false by (cbn; now rewrite Hd).
  replace (isIdentifier (Some c)) with true by (cbn; now rewrite Hd).
  replace (shouldAwaitName (Some c)) with (shouldAwait s)
    by (unfold shouldAwaitName, name; cbn; now rewrite Hd).
  reflexivity.
Qed.

Lemma identifier_callee_classification_witness :
  isReturnValue (Samples.render_call false) = false
  /\ shouldAwait "render" = false
  /\ getMethodThatShouldBeAwaited (Samples.render_call false) = None.
Proof.
  split; [reflexivity|]. split; [reflexivity|].
  rewrite (identifier_callee_classification
             (Samples.render_call false) (Samples.ident "render" (100, 106)) "render"
             eq_refl eq_refl eq_refl).
  reflexivity.
Defined.

(** X4: when the callee is a non-null assertion [e!], only the property of
    a member access [e] is looked at: the call is classified when that
    property is an identifier with a tracked name, and in no other case;
    a tracked object, as in [userEvent.click!(x)], an asserted identifier,
    as in [play!()], or an [expect(...)] chain under the assertion is not
    classified. *)
Theorem nonNull_callee_classification (expr c e : Node) :
  isReturnValue expr = false ->
  callee expr = Some c ->
  detail c = TSNonNullExpression e ->
  getMethodThatShouldBeAwaited expr =
  match detail e with
  | MemberExpression o p =>
      if isIdentifier (Some p) && shouldAwaitName (Some p) then Some p else None
  | _ => None
  end.
Proof.
  intros Hret Hc Hd. rewrite (getMethodThatShouldBeAwaited_callee _ _ Hret Hc).
  replace (expression c) with (Some e) by (unfold expression; now rewrite Hd).
  replace (isMemberExpression (Some c)) with false by (cbn; now rewrite Hd).
  replace (isTSNonNullExpression (Some c)) with true by (cbn; now rewrite Hd).
  replace (isIdentifier (Some c)) with false by (cbn; now rewrite Hd).
  cbn [andb obind]. unfold property.
  destruct e as [ep re ed]. destruct ed; reflexivity.
Qed.

Lemma nonNull_callee_classification_witness :
  isReturnValue (Samples.click_nonNull_call false) = false
  /\ getMethodThatShouldBeAwaited (Samples.click_call false)
     = Some (Samples.ident "userEvent" (70, 79))
  /\ getMethodThatShouldBeAwaited (Samples.click_nonNull_call false) = None.
Proof.
  split; [reflexivity|]. split; [reflexivity|].
  rewrite (nonNull_callee_classification
             (Samples.click_nonNull_call false)
             (Samples.nonNull Samples.userEvent_click) Samples.userEvent_click
             eq_refl eq_refl eq_refl).
  reflexivity.
Defined.

(** X5: a node whose callee is absent, or is neither a member access, nor a
    non-null assertion, nor an identifier, is never classified. *)
Theorem other_callee_not_classified (expr : Node) :
  isMemberExpression (callee expr) = false ->
  isTSNonNullExpression (callee expr) = false ->
  isIdentifier (callee expr) = false ->
  getMethodThatShouldBeAwaited expr = None.
Proof.
  intros Hmem Hnn Hid. unfold getMethodThatShouldBeAwaited.
  rewrite Hmem, Hnn, Hid. cbn.
  now destruct (isArrowFunctionExpression (parent expr) || isReturnStatement (parent expr)).
Qed.

Lemma other_callee_not_classified_witness :
  getMethodThatShouldBeAwaited
    (mkNode (Some (Samples.statement false (70, 80))) (70, 80)
            (CallExpression Samples.expect_call)) = None.
Proof.
  apply (other_callee_not_classified
           (mkNode (Some (Samples.statement false (70, 80))) (70, 80)
                   (CallExpression Samples.expect_call)));
    reflexivity.
Defined.

(** ** The scope resolver, read backwards *)

Lemma getClosestFunctionAncestor_ancestor (node f : Node) :
  getClosestFunctionAncestor node = Some f ->
  exists between above,
    ancestors node = between ++ f :: above /\ Forall passedThrough between.
Proof.
  remember (ancestors node) as l eqn:Hl. revert node Hl.
  induction l as [|a l IH]; intros node Hl; rewrite ancestors_unfold in Hl;
    rewrite getClosestFunctionAncestor_unfold;
    destruct (parent node) as [p|]; try discriminate.
  injection Hl as -> ->.
  destruct (isProgram (Some p)) eqn:Hprog; [discriminate|].
  destruct (isFunctionLike p) eqn:Hfun.
  - intros Hf. injection Hf as <-. exists [], (ancestors p).
    split; [reflexivity | constructor].
  - intros Hf. destruct (IH p eq_refl Hf) as (between & above & Hanc & Hall).
    exists (p :: between), above. split.
    + cbn. now rewrite Hanc.
    + constructor; [now split | assumption].
Qed.

(** X6: what the scope resolver returns is one of the ancestors of the
    node, it is a function, and every ancestor nearer than it is neither a
    function nor the program root; when it returns nothing, the ancestors
    up to the first program root, or all of them when there is none, hold
    no function. *)
Theorem getClosestFunctionAncestor_inv (node : Node) :
  (forall f,
      getClosestFunctionAncestor node = Some f ->
      isFunctionLike f = true
      /\ exists between above,
          ancestors node = between ++ f :: above
          /\ Forall passedThrough between)
  /\ (getClosestFunctionAncestor node = None ->
      exists between above,
        ancestors node = between ++ above
        /\ Forall passedThrough between
        /\ match above with
           | [] => True
           | q :: _ => isProgram (Some q) = true
           end).
Proof.
  split.
  - intros f Hf. split.
    + now apply (getClosestFunctionAncestor_functionLike node).
    + now apply getClosestFunctionAncestor_ancestor.
  - remember (ancestors node) as l eqn:Hl. revert node Hl.
    induction l as [|a l IH]; intros node Hl; rewrite ancestors_unfold in Hl;
      rewrite getClosestFunctionAncestor_unfold;
      destruct (parent node) as [p|]; try discriminate.
    + intros _. exists [], []. repeat split. constructor.
    + injection Hl as -> ->.
      destruct (isProgram (Some p)) eqn:Hprog.
      { intros _. exists [], (p :: ancestors p).
        repeat split; [constructor | assumption]. }
      destruct (isFunctionLike p) eqn:Hfun; [discriminate|].
      intros Hf. destruct (IH p eq_refl Hf) as (between & above & Hanc & Hall & Htop).
      exists (p :: between), above. repeat split.
      * cbn. now rewrite Hanc.
      * constructor; [now split | assumption].
      * assumption.
Qed.

Lemma getClosestFunctionAncestor_inv_witness :
  getClosestFunctionAncestor Samples.top_play = None
  /\ exists between above,
      ancestors Samples.top_play = between ++ above
      /\ Forall passedThrough between
      /\ match above with
         | [] => True
         | q :: _ => isProgram (Some q) = true
         end.
Proof.
  split; [reflexivity|].
  destruct (getClosestFunctionAncestor_inv Samples.top_play) as [_ H].
  apply H. reflexivity.
Defined.

(** ** The walk in closed form *)

Lemma visit_flag (st : State) (n : Node) :
  isImportingFromStorybookExpect (visit st n)
  = isImportingFromStorybookExpect st && keepsGate n.
Proof.
  unfold visit, keepsGate. destruct (detail n);
    try (now rewrite andb_true_r).
  - rewrite on_CallExpression_flag. now rewrite andb_true_r.
  - apply on_ImportDeclaration_flag.
Qed.

Lemma visit_queue (st : State) (n : Node) :
  invocationsThatShouldBeAwaited (visit st n)
  = invocationsThatShouldBeAwaited st ++ enqueued n.
Proof.
  unfold visit, enqueued. destruct (detail n) eqn:Hd;
    try (now rewrite app_nil_r).
  - destruct (on_CallExpression_cases n st)
      as [(m & -> & -> & ->) | ([-> | Haw] & ->)]; cbn;
      try (now rewrite app_nil_r); try reflexivity.
    rewrite Haw. destruct (getMethodThatShouldBeAwaited n); now rewrite app_nil_r.
  - rewrite on_ImportDeclaration_queue. now rewrite app_nil_r.
Qed.

Lemma traverse_flag (nodes : list Node) :
  forall st,
    isImportingFromStorybookExpect (traverse nodes st)
    = isImportingFromStorybookExpect st && forallb keepsGate nodes.
Proof.
  unfold traverse. induction nodes as [|n nodes IH]; intros st; cbn.
  - now rewrite andb_true_r.
  - now rewrite IH, visit_flag, andb_assoc.
Qed.

Lemma traverse_queue (nodes : list Node) :
  forall st,
    invocationsThatShouldBeAwaited (traverse nodes st)
    = invocationsThatShouldBeAwaited st ++ flat_map enqueued nodes.
Proof.
  unfold traverse. induction nodes as [|n nodes IH]; intros st; cbn.
  - now rewrite app_nil_r.
  - now rewrite IH, visit_queue, app_assoc.
Qed.

Lemma lint_closed (nodes : list Node) :
  lint nodes =
  if forallb keepsGate nodes then map report (flat_map enqueued nodes) else [].
Proof.
  unfold lint.
  pose proof (traverse_flag nodes create) as Hflag.
  pose proof (traverse_queue nodes create) as Hqueue. cbn in Hflag, Hqueue.
  destruct (forallb keepsGate nodes).
  - now rewrite (on_Program_exit_open _ Hflag), Hqueue.
  - now apply on_Program_exit_gated.
Qed.

Lemma enqueued_inv (n : Node) (i : Invocation) :
  In i (enqueued n) ->
  node i = n
  /\ isCallExpression (Some n) = true
  /\ getMethodThatShouldBeAwaited n = Some (method i)
  /\ isAwaited n = false.
Proof.
  unfold enqueued. cbn. destruct (detail n); try contradiction.
  destruct (getMethodThatShouldBeAwaited n) as [m|]; [|contradiction].
  destruct (isAwaited n); [contradiction|].
  intros [<- | []]. repeat split.
Qed.

Lemma forallb_keepsGate (nodes : list Node) :
  forallb keepsGate nodes = true <->
  forall n d, In n nodes -> detail n = ImportDeclaration d ->
              startsWith (value (source d)) "@storybook/" = true.
Proof.
  rewrite forallb_forall. unfold keepsGate, isExpectFromStorybookImported. split.
  - intros H n d Hin Hd. specialize (H n Hin). now rewrite Hd in H.
  - intros H n Hin. destruct (detail n) eqn:Hd; try reflexivity. now apply (H n).
Qed.

(** X7: at the end of the walk the gate is open exactly when every import
    statement visited has a source that starts with [@storybook/]; in
    particular it is open for a file without imports. *)
Theorem gate_open_iff_all_imports_in_namespace (nodes : list Node) :
  isImportingFromStorybookExpect (traverse nodes create) = true <->
  forall n d, In n nodes -> detail n = ImportDeclaration d ->
              startsWith (value (source d)) "@storybook/" = true.
Proof.
  rewrite traverse_flag. cbn. apply forallb_keepsGate.
Qed.

(** X8: from any state, the walk appends to the queue, in the order of the
    walk, the visited call expressions that are classified and not awaited,
    each with its method, and removes nothing; the diagnostics of a file
    are the reports of these, in that order, when every import statement
    visited is in the namespace, and none otherwise. *)
Theorem lint_in_walk_order (nodes : list Node) :
  (forall st,
      invocationsThatShouldBeAwaited (traverse nodes st)
      = invocationsThatShouldBeAwaited st ++ flat_map enqueued nodes)
  /\ lint nodes =
     if forallb keepsGate nodes then map report (flat_map enqueued nodes) else [].
Proof.
  split.
  - apply traverse_queue.
  - apply lint_closed.
Qed.

(** X9: a diagnostic is given exactly for the visited call expressions that
    the classifier accepts and that are not awaited, provided no visited
    import is from outside the namespace: nothing is reported for a node
    that was not visited, that is not a call, that is a return value or
    that is awaited. *)
Theorem reported_iff (nodes : list Node) (r : ReportDescriptor) :
  In r (lint nodes) <->
  forallb keepsGate nodes = true
  /\ exists n m,
      In n nodes
      /\ isCallExpression (Some n) = true
      /\ isReturnValue n = false
      /\ getMethodThatShouldBeAwaited n = Some m
      /\ isAwaited n = false
      /\ r = report {| node := n; method := m |}.
Proof.
  rewrite lint_closed. destruct (forallb keepsGate nodes).
  - rewrite in_map_iff. split.
    + intros [i [<- Hin]]. split; [reflexivity|].
      apply in_flat_map in Hin. destruct Hin as [n [Hn Hi]].
      apply enqueued_inv in Hi. destruct Hi as (Hnode & Hcall & Hm & Haw).
      exists n, (method i). destruct i as [n' m']. cbn in *. subst n'.
      repeat split; try assumption.
      destruct (isReturnValue n) eqn:Hret; [|reflexivity].
      rewrite (getMethodThatShouldBeAwaited_return_value _ Hret) in Hm. discriminate.
    + intros [_ (n & m & Hn & Hcall & _ & Hm & Haw & ->)].
      exists {| node := n; method := m |}. split; [reflexivity|].
      apply in_flat_map. exists n. split; [assumption|].
      unfold enqueued. rewrite Hm, Haw.
      destruct n as [np nr nd]. destruct nd; try discriminate. now left.
  - split; [contradiction | intros [H _]; discriminate].
Qed.

Lemma enqueued_nodes (nodes : list Node) (n : Node) :
  In n (map node (flat_map enqueued nodes)) ->
  In n nodes /\ isCallExpression (Some n) = true.
Proof.
  rewrite in_map_iff. intros [i [<- Hin]].
  apply in_flat_map in Hin. destruct Hin as [n' [Hn' Hi]].
  apply enqueued_inv in Hi. destruct Hi as (-> & Hcall & _). now split.
Qed.

Lemma enqueued_at_most_one (n : Node) :
  map node (enqueued n) = [] \/ map node (enqueued n) = [n].
Proof.
  unfold enqueued. destruct (detail n); try (now left).
  destruct (getMethodThatShouldBeAwaited n); [|now left].
  destruct (isAwaited n); [now left | now right].
Qed.

Lemma enqueued_NoDup (nodes : list Node) :
  NoDup nodes -> NoDup (map node (flat_map enqueued nodes)).
Proof.
  induction 1 as [|n nodes Hnotin Hnodup IH]; cbn; [constructor|].
  rewrite map_app.
  destruct (enqueued_at_most_one n) as [-> | ->]; [assumption|].
  cbn. constructor; [|assumption].
  intros Hin. apply enqueued_nodes in Hin. now destruct Hin.
Qed.

Lemma enqueued_length (nodes : list Node) :
  List.length (flat_map enqueued nodes)
  <= List.length (filter (fun n => isCallExpression (Some n)) nodes).
Proof.
  induction nodes as [|n nodes IH]; [constructor|].
  cbn [flat_map filter]. rewrite length_app.
  assert (Hlen : List.length (enqueued n) <= if isCallExpression (Some n) then 1 else 0).
  { unfold enqueued. cbn. destruct (detail n); cbn; try lia.
    destruct (getMethodThatShouldBeAwaited n); cbn; [|lia].
    destruct (isAwaited n); cbn; lia. }
  destruct (isCallExpression (Some n)); cbn [Datatypes.length]; lia.
Qed.

(** X10: a file never gets more diagnostics than call expressions were
    visited, and when no node is visited twice no node is the anchor of two
    diagnostics. *)
Theorem at_most_one_diagnostic_per_call (nodes : list Node) :
  List.length (lint nodes)
  <= List.length (filter (fun n => isCallExpression (Some n)) nodes)
  /\ (NoDup nodes -> NoDup (map report_node (lint nodes))).
Proof.
  rewrite lint_closed. destruct (forallb keepsGate nodes).
  - split.
    + rewrite length_map. apply enqueued_length.
    + intros Hnodup. rewrite map_map. cbn.
      change (fun x => node x) with node. now apply enqueued_NoDup.
  - cbn. split; [lia | constructor].
Qed.

Lemma at_most_one_diagnostic_per_call_witness :
  NoDup [Samples.click_call false; Samples.top_play]
  /\ NoDup (map report_node (lint [Samples.click_call false; Samples.top_play])).
Proof.
  assert (H : NoDup [Samples.click_call false; Samples.top_play]).
  { constructor; [|constructor; [intros [] | constructor]].
    intros [Heq | []]. discriminate. }
  split; [exact H|].
  now apply (at_most_one_diagnostic_per_call
               [Samples.click_call false; Samples.top_play]).
Defined.

(** X11: where an import statement comes in the walk makes no difference
    to the diagnostics of the file, and a node that is neither a call
    expression nor an import statement makes none at all. *)
Theorem import_position_irrelevant (before after : list Node) (n : Node) :
  isCallExpression (Some n) = false ->
  lint (before ++ n :: after) = lint (n :: before ++ after)
  /\ (keepsGate n = true -> lint (before ++ n :: after) = lint (before ++ after)).
Proof.
  intros Hcall.
  assert (Hq : enqueued n = []).
  { unfold enqueued. cbn in Hcall. now destruct (detail n). }
  rewrite !lint_closed. cbn. rewrite !forallb_app, !flat_map_app. cbn.
  rewrite Hq. cbn. split.
  - now rewrite andb_comm, <- andb_assoc, (andb_comm (forallb keepsGate after)).
  - now intros ->.
Qed.

Lemma import_position_irrelevant_witness :
  isCallExpression (Some (Samples.import_from "some-other-lib" (140, 170))) = false
  /\ lint [Samples.top_play; Samples.import_from "some-other-lib" (140, 170);
           Samples.click_call false]
     = lint [Samples.import_from "some-other-lib" (140, 170); Samples.top_play;
             Samples.click_call false].
Proof.
  split; [reflexivity|].
  apply (import_position_irrelevant
           [Samples.top_play] [Samples.click_call false]
           (Samples.import_from "some-other-lib" (140, 170))).
  reflexivity.
Defined.

(** X12: a fix asks for the asynchronous marker only before a function that
    is an ancestor of the reported call, that is the nearest one, with no
    function and no program root in between, and that is not asynchronous;
    it never marks a function that is asynchronous already. *)
Theorem async_marker_target (nodes : list Node) (r : ReportDescriptor) (f : Node)
        (text : string) :
  In r (lint nodes) ->
  In (f, text) (asyncInsertions (report_fix r)) ->
  text = "async "
  /\ getClosestFunctionAncestor (report_node r) = Some f
  /\ isFunctionLike f = true
  /\ async f = Some false
  /\ exists between above,
      ancestors (report_node r) = between ++ f :: above
      /\ Forall passedThrough between.
Proof.
  intros Hin. apply lint_from_queued in Hin. destruct Hin as [i [_ ->]].
  unfold asyncInsertions. cbn. unfold fixFn, parentFnNeedsAsync.
  destruct (getClosestFunctionAncestor (node i)) as [g|] eqn:Hg;
    [|cbn; contradiction].
  pose proof (getClosestFunctionAncestor_functionLike _ _ Hg) as Hfun.
  pose proof (getClosestFunctionAncestor_ancestor _ _ Hg) as Hanc.
  destruct (proj1 (functionLike_async g) Hfun) as [a Ha]. rewrite Ha.
  destruct a; cbn; [contradiction|].
  intros [Heq | []]. injection Heq as <- <-.
  repeat split; try reflexivity; assumption.
Qed.

Lemma async_marker_target_witness :
  In (report {| node := Samples.findByRole_call false;
                method := Samples.ident "findByRole" (77, 87) |})
     (lint [Samples.findByRole_call false])
  /\ In (Samples.play_fn false, "async ")
        (asyncInsertions
           (report_fix (report {| node := Samples.findByRole_call false;
                                  method := Samples.ident "findByRole" (77, 87) |})))
  /\ async (Samples.play_fn false) = Some false.
Proof.
  assert (Hin : In (report {| node := Samples.findByRole_call false;
                              method := Samples.ident "findByRole" (77, 87) |})
                   (lint [Samples.findByRole_call false]))
    by (left; reflexivity).
  assert (Hfix : In (Samples.play_fn false, "async ")
                    (asyncInsertions
                       (report_fix (report {| node := Samples.findByRole_call false;
                                              method := Samples.ident "findByRole" (77, 87) |}))))
    by (left; reflexivity).
  split; [exact Hin|]. split; [exact Hfix|].
  apply (async_marker_target _ _ _ _ Hin Hfix).
Defined.

(** ** What a diagnostic names *)

Lemma getMethodThatShouldBeAwaited_why (expr m : Node) :
  getMethodThatShouldBeAwaited expr = Some m ->
  shouldAwaitName (Some m) = true
  \/ (isExpectChain expr = true /\ callee expr ?. property = Some m).
Proof.
  unfold getMethodThatShouldBeAwaited, isExpectChain.
  repeat match goal with
         | |- context [if ?c then _ else _] =>
             let E := fresh "E" in destruct c eqn:E
         end; intros H; try discriminate;
    repeat match goal with
           | X : _ && _ = true |- _ => apply andb_prop in X; destruct X
           end.
  - left. congruence.
  - left. congruence.
  - left. congruence.
  - right. split; [|assumption].
    repeat (apply andb_true_intro; split); assumption.
  - left. congruence.
Qed.

(** X13: the method named in a diagnostic is always present, and it is
    either a tracked name or the name of the property called on a call of
    [expect] that is the object of the reported call's callee. *)
Theorem diagnostic_names_tracked_or_expect_method (nodes : list Node)
        (r : ReportDescriptor) :
  In r (lint nodes) ->
  exists s,
    data r = {| data_method := Some s |}
    /\ (shouldAwait s = true
        \/ (isExpectChain (report_node r) = true
            /\ callee (report_node r) ?. property ?. name = Some s)).
Proof.
  intros Hin. apply lint_from_queued in Hin. destruct Hin as [i [[Hm _] ->]].
  pose proof (getMethodThatShouldBeAwaited_identifier _ _ Hm) as Hid.
  apply isIdentifier_name in Hid. destruct Hid as [s Hs]. cbn in Hs.
  exists s. cbn. split; [now rewrite Hs|].
  destruct (getMethodThatShouldBeAwaited_why _ _ Hm) as [Hsa | [Hchain Hprop]].
  - left. unfold shouldAwaitName in Hsa. cbn in Hsa. now rewrite Hs in Hsa.
  - right. split; [assumption|]. now rewrite Hprop.
Qed.

Lemma diagnostic_names_tracked_or_expect_method_witness :
  In (report {| node := Samples.expect_toBe_call false; method := Samples.toBe |})
     (lint [Samples.expect_toBe_call false])
  /\ exists s,
      data (report {| node := Samples.expect_toBe_call false; method := Samples.toBe |})
      = {| data_method := Some s |}
      /\ (shouldAwait s = true
          \/ (isExpectChain (Samples.expect_toBe_call false) = true
              /\ callee (Samples.expect_toBe_call false) ?. property ?. name = Some s)).
Proof.
  assert (Hin : In (report {| node := Samples.expect_toBe_call false;
                              method := Samples.toBe |})
                   (lint [Samples.expect_toBe_call false]))
    by (left; reflexivity).
  split; [exact Hin|].
  apply (diagnostic_names_tracked_or_expect_method _ _ Hin).
Defined.
